(** * Streaming event types of strands/types/streaming.py

    The module declares the wire shape of a streaming model response as a
    family of [TypedDict] classes.  Part I embeds those declarations: Python
    values, type annotations, the [TypedDict] class constructor with its
    [total] flag and inheritance, and the conformance check PEP 589 gives
    them.  Part II models the aggregation engine that the specification
    builds on top of these types. *)

From Stdlib Require Import ZArith.
From stdpp Require Import gmap strings list fin_maps.

Local Open Scope string_scope.

Set Warnings "-register-all".

(** ** Part I: Python values and annotations *)

Module Py.

(** Python values that can appear in a decoded event.  A [float] is kept as
    its binary64 bit pattern; no arithmetic on it is modelled. *)
Inductive value : Type :=
| VNone
| VBool (b : bool)
| VInt (n : Z)
| VFloat (bits : Z)
| VStr (s : string)
| VBytes (bs : list Byte.byte)
| VList (xs : list value)
| VDict (d : gmap string value).

(** Type annotations as the module writes them.  [AImported] stands for a
    type imported from a sibling module, given by its acceptance test. *)
Inductive ann : Type :=
| ANone
| ABool
| AInt
| AFloat
| AStr
| ABytes
| ADict
| AList
| AUnion (alts : list ann)
| ATyped (fields : list (string * (bool * ann)))
| AImported (ok : value -> bool).

(** A declared key: its name, whether it is required, its annotation. *)
Definition field : Type := string * (bool * ann).

Definition Optional (a : ann) : ann := AUnion [a; ANone].

Definition fields_of (a : ann) : list field :=
  match a with
  | ATyped fs => fs
  | _ => []
  end.

(** [class C(Base, total=t): k1: a1; ...]: the keys of the base class keep
    their own requiredness, the keys of the body are required iff [t]. *)
Definition TypedDict (total : bool) (base : list field)
    (body : list (string * ann)) : ann :=
  ATyped (base ++ map (fun ka => (ka.1, (total, ka.2))) body).

(** Keys of [d] that are not among [names]. *)
Definition undeclared (names : list string) (d : gmap string value)
    : gmap string value :=
  foldr delete d names.

(** Conformance of a value to an annotation.  [bool] is a subclass of
    [int], and [int] is accepted where [float] is expected (PEP 484).  A
    [TypedDict] value holds every required key, a conforming value under
    every declared key it holds, and no undeclared key. *)
Fixpoint conforms (a : ann) (v : value) {struct a} : bool :=
  match a with
  | ANone => match v with VNone => true | _ => false end
  | ABool => match v with VBool _ => true | _ => false end
  | AInt => match v with VInt _ | VBool _ => true | _ => false end
  | AFloat => match v with VFloat _ | VInt _ | VBool _ => true | _ => false end
  | AStr => match v with VStr _ => true | _ => false end
  | ABytes => match v with VBytes _ => true | _ => false end
  | ADict => match v with VDict _ => true | _ => false end
  | AList => match v with VList _ => true | _ => false end
  | AUnion alts => existsb (fun a' => conforms a' v) alts
  | ATyped fs =>
      match v with
      | VDict d =>
          forallb (fun f =>
                     match f with
                     | (k, (req, a')) =>
                         match d !! k with
                         | Some x => conforms a' x
                         | None => negb req
                         end
                     end) fs
          && bool_decide (undeclared (map fst fs) d = ∅)
      | _ => false
      end
  | AImported ok => ok v
  end.

(** The check [conforms] makes of one declared key against a dict. *)
Definition field_ok (d : gmap string value) (f : field) : bool :=
  match d !! f.1 with
  | Some x => conforms f.2.2 x
  | None => negb f.2.1
  end.

(** A key that may be left out. *)
Definition optional_field (f : field) : Prop := f.2.1 = false.

(** [k in v] for a dict value. *)
Definition has_key (k : string) (v : value) : bool :=
  match v with
  | VDict d => bool_decide (is_Some (d !! k))
  | _ => false
  end.

(** How many of the keys [names] the value holds. *)
Definition count_keys (names : list string) (v : value) : nat :=
  length (filter (fun k => has_key k v = true) names).

Definition is_bytes (v : value) : bool :=
  match v with
  | VBytes _ => true
  | _ => false
  end.

(** The annotation a [TypedDict] class declares for key [k]. *)
Definition annotation_of (k : string) (a : ann) : option ann :=
  match list_find (λ f : field, f.1 = k) (fields_of a) with
  | Some (_, f) => Some f.2.2
  | None => None
  end.

Definition get (k : string) (v : value) : option value :=
  match v with
  | VDict d => d !! k
  | _ => None
  end.

End Py.

(** ** The declarations of streaming.py *)

Module Streaming.
Import Py.

(** The types the module imports from [.content], [.event_loop] and
    [.guardrails]; their declarations are not part of this file. *)
Record Imports : Type := {
  ContentBlockStart : ann;
  Role : ann;
  Metrics : ann;
  StopReason : ann;
  Usage : ann;
  Trace : ann
}.

Section Declarations.
Variable I : Imports.

Definition MessageStartEvent : ann :=
  TypedDict true [] [("role", Role I)].

Definition ContentBlockStartEvent : ann :=
  TypedDict false []
    [("contentBlockIndex", Optional AInt);
     ("start", ContentBlockStart I)].

Definition ContentBlockDeltaText : ann :=
  TypedDict true [] [("text", AStr)].

Definition ContentBlockDeltaToolUse : ann :=
  TypedDict true [] [("input", AStr)].

Definition ReasoningContentBlockDelta : ann :=
  TypedDict false []
    [("redactedContent", Optional ABytes);
     ("signature", Optional AStr);
     ("text", Optional AStr)].

Definition ContentBlockDelta : ann :=
  TypedDict false []
    [("reasoningContent", ReasoningContentBlockDelta);
     ("text", AStr);
     ("toolUse", ContentBlockDeltaToolUse)].

Definition ContentBlockDeltaEvent : ann :=
  TypedDict false []
    [("contentBlockIndex", Optional AInt);
     ("delta", ContentBlockDelta)].

Definition ContentBlockStopEvent : ann :=
  TypedDict false [] [("contentBlockIndex", Optional AInt)].

Definition MessageStopEvent : ann :=
  TypedDict false []
    [("additionalModelResponseFields",
      Optional (AUnion [ADict; AList; AInt; AFloat; AStr; ABool; ANone]));
     ("stopReason", StopReason I)].

Definition MetadataEvent : ann :=
  TypedDict false []
    [("metrics", Metrics I);
     ("trace", Optional (Trace I));
     ("usage", Usage I)].

Definition ExceptionEvent : ann :=
  TypedDict true [] [("message", AStr)].

Definition ModelStreamErrorEvent : ann :=
  TypedDict true (fields_of ExceptionEvent)
    [("originalMessage", AStr);
     ("originalStatusCode", AInt)].

Definition RedactContentEvent : ann :=
  TypedDict false []
    [("redactUserContentMessage", Optional AStr);
     ("redactAssistantContentMessage", Optional AStr)].

Definition StreamEvent : ann :=
  TypedDict false []
    [("contentBlockDelta", ContentBlockDeltaEvent);
     ("contentBlockStart", ContentBlockStartEvent);
     ("contentBlockStop", ContentBlockStopEvent);
     ("internalServerException", ExceptionEvent);
     ("messageStart", MessageStartEvent);
     ("messageStop", MessageStopEvent);
     ("metadata", MetadataEvent);
     ("redactContent", RedactContentEvent);
     ("modelStreamErrorException", ModelStreamErrorEvent);
     ("serviceUnavailableException", ExceptionEvent);
     ("throttlingException", ExceptionEvent);
     ("validationException", ExceptionEvent)].

End Declarations.

(** The twelve keys of [StreamEvent], in declaration order. *)
Definition variant_keys : list string :=
  ["contentBlockDelta"; "contentBlockStart"; "contentBlockStop";
   "internalServerException"; "messageStart"; "messageStop"; "metadata";
   "redactContent"; "modelStreamErrorException";
   "serviceUnavailableException"; "throttlingException";
   "validationException"].

(** The three keys of [ContentBlockDelta]. *)
Definition delta_keys : list string :=
  ["reasoningContent"; "text"; "toolUse"].

(** Modelled from the spec: the imported types, whose declarations are
    missing, as the payload table describes them: [role] and [stopReason]
    are strings, [metrics], [usage], [trace] and [start] are objects. *)
Definition wire_imports : Imports :=
  {| ContentBlockStart := ADict;
     Role := AStr;
     Metrics := ADict;
     StopReason := AStr;
     Usage := ADict;
     Trace := ADict |}.

End Streaming.

(** ** Part II: the aggregation engine

    The module under verification declares types only.  The engine that
    consumes the events (EventAggregator, ContentBlockAssembler,
    ErrorClassifier, MetricsCollector) is described by the specification,
    sections 3, 4 and 7, and is modelled here from that description. *)

Module Engine.

Section Aggregation.
(** Metrics, trace and free-form JSON payloads are opaque to the engine. *)
Context {Metrics Trace JSON : Type}.

(** Modelled from the spec: the start descriptor of a content block
    declares its variant; a tool-use start carries [toolUseId] and [name]
    (section 4.2).  The payload type of [start] is imported and missing. *)
Inductive StartDescriptor : Type :=
| StartText
| StartToolUse (toolUseId name : string)
| StartReasoning.

(** Modelled from the spec: a decoded delta, one of the three shapes of the
    payload table (section 6). *)
Inductive Delta : Type :=
| DeltaText (text : string)
| DeltaToolUse (input : string)
| DeltaReasoning (text signature : option string)
    (redactedContent : option (list Byte.byte)).

(** Modelled from the spec: the usage counters (section 4.4: input, output
    and total tokens); the [Usage] type is imported and missing. *)
Record Usage : Type := {
  inputTokens : Z;
  outputTokens : Z;
  totalTokens : Z
}.

Inductive ExceptionTag : Type :=
| internalServerException
| modelStreamErrorException
| serviceUnavailableException
| throttlingException
| validationException.

(** Modelled from the spec: the payload of an exception event (section 6):
    [message], and for modelStreamErrorException also [originalMessage]
    and [originalStatusCode]. *)
Record ExceptionPayload : Type := {
  message : string;
  originalMessage : option string;
  originalStatusCode : option Z
}.

(** Modelled from the spec: a decoded [StreamEvent], one constructor per
    wire key, with the payload fields of section 6. *)
Inductive Event : Type :=
| EvMessageStart (role : string)
| EvContentBlockStart (contentBlockIndex : option nat)
    (start : StartDescriptor)
| EvContentBlockDelta (contentBlockIndex : option nat) (delta : Delta)
| EvContentBlockStop (contentBlockIndex : option nat)
| EvMessageStop (stopReason : string)
    (additionalModelResponseFields : option JSON)
| EvMetadata (metrics : Metrics) (trace : option Trace) (usage : Usage)
| EvRedactContent (redactUserContentMessage : option string)
    (redactAssistantContentMessage : option string)
| EvException (tag : ExceptionTag) (payload : ExceptionPayload).

(** Modelled from the spec: a finalized content block (section 3). *)
Inductive ContentBlock : Type :=
| BlockText (value : string)
| BlockToolUse (toolUseId name input : string)
| BlockReasoning (text signature : option string)
    (redactedContent : option (list Byte.byte)).

(** Modelled from the spec: the final message (section 3). *)
Record Message : Type := {
  msg_role : string;
  msg_content : list ContentBlock;
  msg_stopReason : string;
  msg_additionalModelResponseFields : option JSON
}.

(** *** ContentBlockAssembler (section 4.2) *)

(** Modelled from the spec: the accumulation state of one open block: its
    declared variant with the buffers of that variant. *)
Inductive Assembler : Type :=
| AsmText (buffer : string)
| AsmToolUse (toolUseId name buffer : string)
| AsmReasoning (text signature : option string)
    (redactedContent : option (list Byte.byte)).

Inductive AssemblerError : Type :=
| TypeMismatch
| SignatureConflict.

(** Modelled from the spec: the assembler created by contentBlockStart for
    the variant its start descriptor declares. *)
Definition new_assembler (st : StartDescriptor) : Assembler :=
  match st with
  | StartText => AsmText ""
  | StartToolUse id name => AsmToolUse id name ""
  | StartReasoning => AsmReasoning None None None
  end.

(** Appending a fragment to an optional buffer: an absent fragment leaves
    the buffer as it is, a present one creates or extends it. *)
Definition append_opt {A} (app : A -> A -> A) (buf frag : option A)
    : option A :=
  match frag with
  | None => buf
  | Some x =>
      match buf with
      | None => Some x
      | Some b => Some (app b x)
      end
  end.

(** Modelled from the spec: [accumulate].  Text and tool input append; the
    reasoning text and redacted bytes append, the signature is overwritten
    and a second, differing signature is an error; a delta of another
    variant is a [TypeMismatch]. *)
Definition accumulate (a : Assembler) (d : Delta)
    : AssemblerError + Assembler :=
  match a, d with
  | AsmText buf, DeltaText t => inr (AsmText (buf ++ t))
  | AsmToolUse id name buf, DeltaToolUse i =>
      inr (AsmToolUse id name (buf ++ i))
  | AsmReasoning t sg r, DeltaReasoning dt dsg dr =>
      match sg, dsg with
      | Some old, Some new =>
          if bool_decide (old = new)
          then inr (AsmReasoning (append_opt String.append t dt) (Some new)
                      (append_opt (@app Byte.byte) r dr))
          else inl SignatureConflict
      | _, Some new =>
          inr (AsmReasoning (append_opt String.append t dt) (Some new)
                 (append_opt (@app Byte.byte) r dr))
      | _, None =>
          inr (AsmReasoning (append_opt String.append t dt) sg
                 (append_opt (@app Byte.byte) r dr))
      end
  | _, _ => inl TypeMismatch
  end.

(** Modelled from the spec: [finalize], the block of the accumulated
    buffers; reasoning fields that never received data stay unset. *)
Definition finalize (a : Assembler) : ContentBlock :=
  match a with
  | AsmText buf => BlockText buf
  | AsmToolUse id name buf => BlockToolUse id name buf
  | AsmReasoning t sg r => BlockReasoning t sg r
  end.

(** *** ErrorClassifier (section 4.3) *)

Inductive ErrorKind : Type :=
| InternalServer
| ModelStreamError
| ServiceUnavailable
| Throttling
| Validation.

Record ProviderError : Type := {
  kind : ErrorKind;
  retryable : bool;
  err_message : string;
  err_originalMessage : option string;
  err_originalStatusCode : option Z
}.

(** The wire key of each exception tag, as [StreamEvent] declares it. *)
Definition tag_key (t : ExceptionTag) : string :=
  match t with
  | internalServerException => "internalServerException"
  | modelStreamErrorException => "modelStreamErrorException"
  | serviceUnavailableException => "serviceUnavailableException"
  | throttlingException => "throttlingException"
  | validationException => "validationException"
  end.

(** Modelled from the spec: the kind of each wire tag. *)
Definition kind_of_tag (t : ExceptionTag) : ErrorKind :=
  match t with
  | internalServerException => InternalServer
  | modelStreamErrorException => ModelStreamError
  | serviceUnavailableException => ServiceUnavailable
  | throttlingException => Throttling
  | validationException => Validation
  end.

(** Modelled from the spec: the advisory retry hint of each kind. *)
Definition retry_hint (k : ErrorKind) : bool :=
  match k with
  | Throttling | ServiceUnavailable => true
  | InternalServer | ModelStreamError | Validation => false
  end.

(** Modelled from the spec: [classify], from the wire tag and the payload;
    only a model stream error carries the original message and status. *)
Definition classify (t : ExceptionTag) (p : ExceptionPayload)
    : ProviderError :=
  let k := kind_of_tag t in
  {| kind := k;
     retryable := retry_hint k;
     err_message := message p;
     err_originalMessage :=
       match k with ModelStreamError => originalMessage p | _ => None end;
     err_originalStatusCode :=
       match k with ModelStreamError => originalStatusCode p | _ => None end
  |}.

(** *** MetricsCollector (section 4.4) *)

Record Collector : Type := {
  col_usage : Usage;
  col_metrics : option Metrics;
  col_trace : option Trace
}.

Definition empty_collector : Collector :=
  {| col_usage := {| inputTokens := 0; outputTokens := 0; totalTokens := 0 |};
     col_metrics := None;
     col_trace := None |}.

Definition add_usage (u v : Usage) : Usage :=
  {| inputTokens := inputTokens u + inputTokens v;
     outputTokens := outputTokens u + outputTokens v;
     totalTokens := totalTokens u + totalTokens v |}.

(** Modelled from the spec: [merge] of one metadata event: usage counters
    are summed, metrics are replaced, the trace is replaced when the event
    carries one. *)
Definition merge (c : Collector) (m : Metrics) (t : option Trace)
    (u : Usage) : Collector :=
  {| col_usage := add_usage (col_usage c) u;
     col_metrics := Some m;
     col_trace := match t with Some x => Some x | None => col_trace c end |}.

(** *** EventAggregator (section 4.1) *)

Inductive Phase : Type :=
| Idle
| MessageOpen
| Closed
| Errored.

(** Modelled from the spec: the error taxonomy of section 7. *)
Inductive Error : Type :=
| ProtocolViolation (reason : string)
| IncompleteStream
| ProviderException (e : ProviderError)
| StreamAlreadyTerminated.

(** Modelled from the spec: what [consume] returns. *)
Inductive Outcome : Type :=
| NoResult
| FinalMessage (m : Message)
| Failure (e : Error).

(** Modelled from the spec: the state the aggregator owns.  [open_blocks]
    lists the open assemblers by index, the most recently opened first;
    [starts] counts the contentBlockStart events accepted so far and is
    the index given to a start event that carries none. *)
Record State : Type := {
  phase : Phase;
  role : string;
  content : list ContentBlock;
  open_blocks : list (nat * Assembler);
  starts : nat;
  collector : Collector;
  result : option Message
}.

Definition initial : State :=
  {| phase := Idle;
     role := "";
     content := [];
     open_blocks := [];
     starts := 0;
     collector := empty_collector;
     result := None |}.

Definition set_phase (p : Phase) (s : State) : State :=
  {| phase := p; role := role s; content := content s;
     open_blocks := open_blocks s; starts := starts s;
     collector := collector s; result := result s |}.

Definition set_role (r : string) (s : State) : State :=
  {| phase := phase s; role := r; content := content s;
     open_blocks := open_blocks s; starts := starts s;
     collector := collector s; result := result s |}.

Definition set_content (c : list ContentBlock) (s : State) : State :=
  {| phase := phase s; role := role s; content := c;
     open_blocks := open_blocks s; starts := starts s;
     collector := collector s; result := result s |}.

Definition set_open (o : list (nat * Assembler)) (s : State) : State :=
  {| phase := phase s; role := role s; content := content s;
     open_blocks := o; starts := starts s;
     collector := collector s; result := result s |}.

Definition set_starts (n : nat) (s : State) : State :=
  {| phase := phase s; role := role s; content := content s;
     open_blocks := open_blocks s; starts := n;
     collector := collector s; result := result s |}.

Definition set_collector (c : Collector) (s : State) : State :=
  {| phase := phase s; role := role s; content := content s;
     open_blocks := open_blocks s; starts := starts s;
     collector := c; result := result s |}.

Definition set_result (m : Message) (s : State) : State :=
  {| phase := phase s; role := role s; content := content s;
     open_blocks := open_blocks s; starts := starts s;
     collector := collector s; result := Some m |}.

(** The assembler open at index [i]. *)
Fixpoint find_open (i : nat) (o : list (nat * Assembler))
    : option Assembler :=
  match o with
  | [] => None
  | (j, a) :: o' => if Nat.eqb i j then Some a else find_open i o'
  end.

Fixpoint set_open_at (i : nat) (a : Assembler) (o : list (nat * Assembler))
    : list (nat * Assembler) :=
  match o with
  | [] => []
  | (j, b) :: o' =>
      if Nat.eqb i j then (j, a) :: o' else (j, b) :: set_open_at i a o'
  end.

Fixpoint discard_open (i : nat) (o : list (nat * Assembler))
    : list (nat * Assembler) :=
  match o with
  | [] => []
  | (j, b) :: o' =>
      if Nat.eqb i j then discard_open i o' else (j, b) :: discard_open i o'
  end.

(** Modelled from the spec: the index a delta or stop event addresses: its
    own, or the most recently opened still-open block when it has none. *)
Definition resolve (idx : option nat) (s : State) : option nat :=
  match idx with
  | Some i => Some i
  | None =>
      match open_blocks s with
      | [] => None
      | (j, _) :: _ => Some j
      end
  end.

(** The assembler a delta or stop event addresses, with its index. *)
Definition addressed (idx : option nat) (s : State)
    : option (nat * Assembler) :=
  match resolve idx s with
  | None => None
  | Some i =>
      match find_open i (open_blocks s) with
      | None => None
      | Some a => Some (i, a)
      end
  end.

(** Modelled from the spec: the placeholder a redaction provides for the
    role of the message in progress. *)
Definition placeholder (r : string) (user assistant : option string)
    : option string :=
  if String.eqb r "user" then user
  else if String.eqb r "assistant" then assistant
  else None.

(** Every error is fatal: the stream moves to [Errored]. *)
Definition fail (e : Error) (s : State) : State * Outcome :=
  (set_phase Errored s, Failure e).

(** Modelled from the spec: [consume] while the message is open. *)
Definition consume_open (s : State) (ev : Event) : State * Outcome :=
  match ev with
  | EvMessageStart _ => fail (ProtocolViolation "unexpected-event-order") s
  | EvContentBlockStart idx st =>
      let i := match idx with Some i => i | None => starts s end in
      match find_open i (open_blocks s) with
      | Some _ => fail (ProtocolViolation "duplicate index") s
      | None =>
          (set_starts (S (starts s))
             (set_open ((i, new_assembler st) :: open_blocks s) s),
           NoResult)
      end
  | EvContentBlockDelta idx d =>
      match addressed idx s with
      | None => fail (ProtocolViolation "delta-without-start") s
      | Some (i, a) =>
          match accumulate a d with
          | inl TypeMismatch => fail (ProtocolViolation "type-mismatch") s
          | inl SignatureConflict =>
              fail (ProtocolViolation "signature-conflict") s
          | inr a' => (set_open (set_open_at i a' (open_blocks s)) s, NoResult)
          end
      end
  | EvContentBlockStop idx =>
      match addressed idx s with
      | None => fail (ProtocolViolation "stop-without-start") s
      | Some (i, a) =>
          (set_open (discard_open i (open_blocks s))
             (set_content (content s ++ [finalize a]) s),
           NoResult)
      end
  | EvMetadata m t u =>
      (set_collector (merge (collector s) m t u) s, NoResult)
  | EvRedactContent user assistant =>
      match placeholder (role s) user assistant with
      | Some p => (set_open [] (set_content [BlockText p] s), NoResult)
      | None => (s, NoResult)
      end
  | EvMessageStop reason extra =>
      match open_blocks s with
      | [] =>
          let m := {| msg_role := role s;
                      msg_content := content s;
                      msg_stopReason := reason;
                      msg_additionalModelResponseFields := extra |} in
          (set_result m (set_phase Closed s), FinalMessage m)
      | _ :: _ => fail IncompleteStream s
      end
  | EvException t p =>
      (set_phase Errored s, Failure (ProviderException (classify t p)))
  end.

(** Modelled from the spec: [consume], one event at a time. *)
Definition consume (s : State) (ev : Event) : State * Outcome :=
  match phase s with
  | Idle =>
      match ev with
      | EvMessageStart r => (set_role r (set_phase MessageOpen s), NoResult)
      | _ => fail (ProtocolViolation "unexpected-event-order") s
      end
  | MessageOpen => consume_open s ev
  | Closed =>
      match ev with
      | EvMetadata m t u =>
          (set_collector (merge (collector s) m t u) s, NoResult)
      | _ => (s, Failure StreamAlreadyTerminated)
      end
  | Errored => (s, Failure StreamAlreadyTerminated)
  end.

(** Feeding a sequence of events: consumption stops at the first event
    that yields a message or an error. *)
Fixpoint feed (s : State) (evs : list Event) : State * Outcome :=
  match evs with
  | [] => (s, NoResult)
  | ev :: rest =>
      match consume s ev with
      | (s', NoResult) => feed s' rest
      | stop => stop
      end
  end.

(** All metadata events of a stream merged, from the empty collector. *)
Definition merge_all (evs : list (Metrics * option Trace * Usage))
    : Collector :=
  fold_left (fun c e => merge c e.1.1 e.1.2 e.2) evs empty_collector.

(** The block a contentBlockStop event closes in state [s]. *)
Definition closed_by (s : State) (ev : Event) : option ContentBlock :=
  match ev with
  | EvContentBlockStop idx =>
      match addressed idx s with
      | Some (_, a) => Some (finalize a)
      | None => None
      end
  | _ => None
  end.

(** The block a redactContent event puts in place of the content. *)
Definition redacted_by (s : State) (ev : Event) : option ContentBlock :=
  match ev with
  | EvRedactContent user assistant =>
      match placeholder (role s) user assistant with
      | Some p => Some (BlockText p)
      | None => None
      end
  | _ => None
  end.

(** The blocks closed by the stop events of [evs], in the order of those
    events, starting from the blocks [acc]; a redaction restarts the
    sequence from its placeholder. *)
Fixpoint close_order (s : State) (evs : list Event)
    (acc : list ContentBlock) : list ContentBlock :=
  match evs with
  | [] => acc
  | ev :: rest =>
      close_order (consume s ev).1 rest
        match closed_by s ev, redacted_by s ev with
        | Some b, _ => acc ++ [b]
        | None, Some p => [p]
        | None, None => acc
        end
  end.

(** The blocks closed by the stop events of [evs], in the order of those
    events. *)
Fixpoint closes (s : State) (evs : list Event) : list ContentBlock :=
  match evs with
  | [] => []
  | ev :: rest =>
      match closed_by s ev with
      | Some b => b :: closes (consume s ev).1 rest
      | None => closes (consume s ev).1 rest
      end
  end.

Definition is_redaction (ev : Event) : bool :=
  match ev with
  | EvRedactContent _ _ => true
  | _ => false
  end.

(** The sum of one usage counter over a sequence of metadata events. *)
Definition total_of (counter : Usage -> Z)
    (evs : list (Metrics * option Trace * Usage)) : Z :=
  foldr Z.add 0%Z (map (fun e => counter e.2) evs).

(** The states of a stream that went on without a result: the message is
    open, or no block is open and no error occurred. *)
Definition steady (s : State) : Prop :=
  phase s = MessageOpen \/ (phase s <> Errored /\ open_blocks s = []).

End Aggregation.
End Engine.

(** * Properties of the declarations *)

Module PyFacts.
Import Py.

Lemma conforms_typed fs d :
  conforms (ATyped fs) (VDict d)
  = forallb (field_ok d) fs && bool_decide (undeclared (map fst fs) d = ∅).
Proof.
  cbn [conforms]. f_equal.
  induction fs as [|[k [req a]] fs IH]; [done|].
  cbn [forallb]. by rewrite IH.
Qed.

Lemma conforms_typed_dict fs v :
  conforms (ATyped fs) v = true → ∃ d, v = VDict d.
Proof. destruct v; cbn [conforms]; try discriminate. eauto. Qed.

Lemma undeclared_lookup names d k :
  undeclared names d !! k = if decide (k ∈ names) then None else d !! k.
Proof.
  unfold undeclared.
  induction names as [|n names IH]; cbn [foldr].
  - case_decide as H; [by inversion H | done].
  - destruct (decide (n = k)) as [->|Hne].
    + rewrite lookup_delete_eq. rewrite decide_True by left. done.
    + rewrite lookup_delete_ne by done. rewrite IH.
      destruct (decide (k ∈ names)) as [Hin|Hnin].
      * rewrite decide_True by (by right). done.
      * rewrite decide_False; [done|]. intros Hk. inversion Hk; by subst.
Qed.

Lemma undeclared_empty names d :
  undeclared names d = ∅ ↔ ∀ k, is_Some (d !! k) → k ∈ names.
Proof.
  split.
  - intros He k [x Hx]. destruct (decide (k ∈ names)) as [|Hn]; [done|].
    assert (undeclared names d !! k = Some x) as H.
    { rewrite undeclared_lookup. by case_decide. }
    rewrite He in H. by rewrite lookup_empty in H.
  - intros H. apply map_eq. intros k. rewrite undeclared_lookup, lookup_empty.
    case_decide as Hk; [done|].
    destruct (d !! k) eqn:E; [|done]. exfalso. apply Hk, H. eauto.
Qed.

Lemma conforms_typed_spec fs d :
  conforms (ATyped fs) (VDict d) = true ↔
  Forall (λ f, field_ok d f = true) fs ∧
  ∀ k, is_Some (d !! k) → k ∈ map fst fs.
Proof.
  rewrite conforms_typed, andb_true_iff, forallb_forall, bool_decide_eq_true.
  rewrite undeclared_empty, Forall_forall.
  split; intros [H1 H2]; (split; [|done]); intros f Hf; apply H1;
    by apply list_elem_of_In.
Qed.

(** A value of a [TypedDict] class holds declared keys only. *)
Lemma conforms_typed_keys fs d k :
  conforms (ATyped fs) (VDict d) = true →
  has_key k (VDict d) = true → k ∈ map fst fs.
Proof.
  intros [_ H]%conforms_typed_spec Hk. apply H.
  by apply bool_decide_eq_true in Hk.
Qed.

(** Where no key is required, dropping a key keeps the value conforming. *)
Lemma conforms_typed_delete fs d k :
  Forall optional_field fs →
  conforms (ATyped fs) (VDict d) = true →
  conforms (ATyped fs) (VDict (delete k d)) = true.
Proof.
  intros Hopt [Hf Hk]%conforms_typed_spec. apply conforms_typed_spec. split.
  - rewrite Forall_forall in *. intros f Hin.
    specialize (Hf f Hin). specialize (Hopt f Hin).
    unfold field_ok in *. destruct (decide (k = f.1)) as [->|Hne].
    + rewrite lookup_delete_eq. by rewrite Hopt.
    + by rewrite lookup_delete_ne.
  - intros j [x Hx]. apply Hk. exists x.
    destruct (decide (k = j)) as [->|Hne].
    + by rewrite lookup_delete_eq in Hx.
    + by rewrite lookup_delete_ne in Hx.
Qed.

(** Where no key is required, the empty dict conforms. *)
Lemma conforms_typed_empty fs :
  Forall optional_field fs → conforms (ATyped fs) (VDict ∅) = true.
Proof.
  intros Hopt. apply conforms_typed_spec. split.
  - rewrite Forall_forall in *. intros f Hin. unfold field_ok.
    rewrite lookup_empty. by rewrite (Hopt f Hin).
  - intros k [x Hx]. by rewrite lookup_empty in Hx.
Qed.

(** Setting a declared key to a conforming value keeps the value
    conforming. *)
Lemma conforms_typed_insert fs d k x :
  (∀ f, f ∈ fs → f.1 = k → conforms f.2.2 x = true) →
  k ∈ map fst fs →
  conforms (ATyped fs) (VDict d) = true →
  conforms (ATyped fs) (VDict (<[k:=x]> d)) = true.
Proof.
  intros Hx Hin [Hf Hk]%conforms_typed_spec. apply conforms_typed_spec. split.
  - rewrite Forall_forall in *. intros f Hfin. specialize (Hf f Hfin).
    unfold field_ok in *. destruct (decide (k = f.1)) as [->|Hne].
    + rewrite lookup_insert_eq. by apply Hx.
    + by rewrite lookup_insert_ne.
  - intros j [y Hy]. destruct (decide (k = j)) as [->|Hne]; [done|].
    rewrite lookup_insert_ne in Hy by done. apply Hk. eauto.
Qed.

(** Two conforming values merged ([d1 | d2], left-biased here) conform. *)
Lemma conforms_typed_union fs d1 d2 :
  conforms (ATyped fs) (VDict d1) = true →
  conforms (ATyped fs) (VDict d2) = true →
  conforms (ATyped fs) (VDict (d1 ∪ d2)) = true.
Proof.
  intros [Hf1 Hk1]%conforms_typed_spec [Hf2 Hk2]%conforms_typed_spec.
  apply conforms_typed_spec. split.
  - rewrite Forall_forall in *. intros f Hin.
    specialize (Hf1 f Hin). specialize (Hf2 f Hin).
    unfold field_ok in *. rewrite lookup_union.
    destruct (d1 !! f.1) as [x|]; destruct (d2 !! f.1) as [y|]; done.
  - intros k [x Hx]. apply lookup_union_Some_raw in Hx as [Hx|[_ Hx]]; eauto.
Qed.

(** The keys of a class body declared with [total=False] are optional. *)
Lemma partial_body_optional (body : list (string * ann)) :
  Forall optional_field (map (λ ka, (ka.1, (false, ka.2))) body).
Proof. induction body; constructor; done. Qed.

Lemma partial_delete body d k :
  conforms (TypedDict false [] body) (VDict d) = true →
  conforms (TypedDict false [] body) (VDict (delete k d)) = true.
Proof. apply conforms_typed_delete, partial_body_optional. Qed.

Lemma partial_empty body :
  conforms (TypedDict false [] body) (VDict ∅) = true.
Proof. apply conforms_typed_empty, partial_body_optional. Qed.

Lemma typed_dict_keys total body d k :
  conforms (TypedDict total [] body) (VDict d) = true →
  has_key k (VDict d) = true → k ∈ map fst body.
Proof.
  intros Hc Hk. pose proof (conforms_typed_keys _ _ _ Hc Hk) as H.
  cbn [app] in H. by rewrite <- list_fmap_compose in H.
Qed.

Lemma count_keys_le names v : (count_keys names v <= length names)%nat.
Proof. unfold count_keys. apply length_filter. Qed.

End PyFacts.

Module StreamingFacts.
Import Py Streaming PyFacts.

(** C1, as the declaration has it: a conforming [StreamEvent] holds only
    keys among the twelve variant keys, and every one of them is optional
    ([total=False]): dropping any key of a conforming event leaves a
    conforming event, the event without any key conforms, and two
    conforming events merged into one conform, so the declared type admits
    zero, one or several variant keys. *)
Theorem StreamEvent_keys_optional (imp : Imports) (d : gmap string value) :
  conforms (StreamEvent imp) (VDict d) = true →
  (∀ k, has_key k (VDict d) = true → k ∈ variant_keys) ∧
  (∀ k, conforms (StreamEvent imp) (VDict (delete k d)) = true) ∧
  conforms (StreamEvent imp) (VDict ∅) = true ∧
  (∀ d', conforms (StreamEvent imp) (VDict d') = true →
         conforms (StreamEvent imp) (VDict (d ∪ d')) = true).
Proof.
  intros Hc. split; [|split; [|split]].
  - intros k Hk. exact (typed_dict_keys _ _ _ _ Hc Hk).
  - intros k. by apply partial_delete.
  - apply partial_empty.
  - intros d' Hc'. by apply conforms_typed_union.
Qed.

Lemma StreamEvent_keys_optional_witness :
  conforms (StreamEvent wire_imports)
    (VDict {[ "messageStart" := VDict {[ "role" := VStr "assistant" ]} ]})
  = true ∧
  conforms (StreamEvent wire_imports)
    (VDict (delete "messageStart"
              {[ "messageStart" := VDict {[ "role" := VStr "assistant" ]} ]}))
  = true.
Proof.
  split; [vm_compute; reflexivity|].
  apply (StreamEvent_keys_optional wire_imports
           {[ "messageStart" := VDict {[ "role" := VStr "assistant" ]} ]}).
  vm_compute. reflexivity.
Defined.

(** C1 as stated fails on the declaration: the event with no key and an
    event with two variant keys both conform to [StreamEvent]. *)
Lemma StreamEvent_not_exactly_one_key :
  conforms (StreamEvent wire_imports) (VDict ∅) = true ∧
  count_keys variant_keys (VDict ∅) = 0%nat ∧
  conforms (StreamEvent wire_imports)
    (VDict {[ "messageStart" := VDict {[ "role" := VStr "assistant" ]};
              "messageStop" := VDict {[ "stopReason" := VStr "end_turn" ]} ]})
  = true ∧
  count_keys variant_keys
    (VDict {[ "messageStart" := VDict {[ "role" := VStr "assistant" ]};
              "messageStop" := VDict {[ "stopReason" := VStr "end_turn" ]} ]})
  = 2%nat.
Proof. vm_compute. repeat split. Qed.

(** C6, as the declaration has it: [MessageStopEvent] is declared with
    [total=False], so both [stopReason] and [additionalModelResponseFields]
    are optional keys, and no other key is admitted; a value set under
    [additionalModelResponseFields] conforms exactly when it is a dict, a
    list, an int, a float, a str, a bool or None, that is, anything but
    [bytes]. *)
Theorem MessageStopEvent_keys_optional (imp : Imports)
    (d : gmap string value) :
  conforms (MessageStopEvent imp) (VDict d) = true →
  (∀ k, has_key k (VDict d) = true →
        k ∈ ["additionalModelResponseFields"; "stopReason"]) ∧
  (∀ k, conforms (MessageStopEvent imp) (VDict (delete k d)) = true) ∧
  (∀ x, conforms (MessageStopEvent imp)
          (VDict (<["additionalModelResponseFields" := x]> d))
        = negb (is_bytes x)).
Proof.
  intros Hc. split; [|split].
  - intros k Hk. exact (typed_dict_keys _ _ _ _ Hc Hk).
  - intros k. by apply partial_delete.
  - intros x. destruct (is_bytes x) eqn:Hb; cbn [negb].
    + apply not_true_is_false. intros [Hf _]%conforms_typed_spec.
      apply Forall_inv in Hf. unfold field_ok in Hf. cbn in Hf.
      rewrite lookup_insert_eq in Hf. by destruct x.
    + apply conforms_typed_insert; [|set_solver|done].
      intros f Hin Hk. cbn in Hin.
      apply elem_of_cons in Hin as [->|Hin]; [by destruct x|].
      apply list_elem_of_singleton in Hin as ->. discriminate Hk.
Qed.

Lemma MessageStopEvent_keys_optional_witness :
  conforms (MessageStopEvent wire_imports)
    (VDict {[ "stopReason" := VStr "end_turn" ]}) = true ∧
  conforms (MessageStopEvent wire_imports)
    (VDict (delete "stopReason" {[ "stopReason" := VStr "end_turn" ]}))
  = true.
Proof.
  split; [vm_compute; reflexivity|].
  apply (MessageStopEvent_keys_optional wire_imports
           {[ "stopReason" := VStr "end_turn" ]}).
  vm_compute. reflexivity.
Defined.

(** C6 as stated fails on the declaration: a messageStop payload without
    [stopReason] conforms. *)
Lemma MessageStopEvent_stopReason_not_required :
  conforms (MessageStopEvent wire_imports) (VDict ∅) = true ∧
  has_key "stopReason" (VDict ∅) = false.
Proof. vm_compute. split; reflexivity. Qed.

(** C7, as the declaration has it: [MetadataEvent] is declared with
    [total=False], so [metrics], [trace] and [usage] are all optional
    keys, and no other key is admitted. *)
Theorem MetadataEvent_keys_optional (imp : Imports) (d : gmap string value) :
  conforms (MetadataEvent imp) (VDict d) = true →
  (∀ k, has_key k (VDict d) = true → k ∈ ["metrics"; "trace"; "usage"]) ∧
  (∀ k, conforms (MetadataEvent imp) (VDict (delete k d)) = true) ∧
  conforms (MetadataEvent imp) (VDict ∅) = true.
Proof.
  intros Hc. split; [|split].
  - intros k Hk. exact (typed_dict_keys _ _ _ _ Hc Hk).
  - intros k. by apply partial_delete.
  - apply partial_empty.
Qed.

Lemma MetadataEvent_keys_optional_witness :
  conforms (MetadataEvent wire_imports)
    (VDict {[ "metrics" := VDict {[ "latencyMs" := VInt 12 ]};
              "usage" := VDict {[ "inputTokens" := VInt 10 ]} ]}) = true ∧
  conforms (MetadataEvent wire_imports)
    (VDict (delete "metrics"
              {[ "metrics" := VDict {[ "latencyMs" := VInt 12 ]};
                 "usage" := VDict {[ "inputTokens" := VInt 10 ]} ]}))
  = true.
Proof.
  split; [vm_compute; reflexivity|].
  apply (MetadataEvent_keys_optional wire_imports
           {[ "metrics" := VDict {[ "latencyMs" := VInt 12 ]};
              "usage" := VDict {[ "inputTokens" := VInt 10 ]} ]}).
  vm_compute. reflexivity.
Defined.

(** C7 as stated fails on the declaration: a metadata payload that holds
    only [trace], with neither [metrics] nor [usage], conforms. *)
Lemma MetadataEvent_metrics_usage_not_required :
  conforms (MetadataEvent wire_imports) (VDict {[ "trace" := VNone ]}) = true ∧
  has_key "metrics" (VDict {[ "trace" := VNone ]}) = false ∧
  has_key "usage" (VDict {[ "trace" := VNone ]}) = false.
Proof. vm_compute. repeat split. Qed.

(** C8, as the declaration has it: [ContentBlockDelta] is declared with
    [total=False], so a conforming delta holds only keys among
    [reasoningContent], [text] and [toolUse], each of them optional:
    dropping a key keeps it conforming, the delta without any key
    conforms, and two conforming deltas merged into one conform, so the
    declared type admits zero, one, two or three variants at once. *)
Theorem ContentBlockDelta_keys_optional (d : gmap string value) :
  conforms ContentBlockDelta (VDict d) = true →
  (∀ k, has_key k (VDict d) = true → k ∈ delta_keys) ∧
  (∀ k, conforms ContentBlockDelta (VDict (delete k d)) = true) ∧
  conforms ContentBlockDelta (VDict ∅) = true ∧
  (∀ d', conforms ContentBlockDelta (VDict d') = true →
         conforms ContentBlockDelta (VDict (d ∪ d')) = true).
Proof.
  intros Hc. split; [|split; [|split]].
  - intros k Hk. exact (typed_dict_keys _ _ _ _ Hc Hk).
  - intros k. by apply partial_delete.
  - apply partial_empty.
  - intros d' Hc'. by apply conforms_typed_union.
Qed.

Lemma ContentBlockDelta_keys_optional_witness :
  conforms ContentBlockDelta (VDict {[ "text" := VStr "Hello" ]}) = true ∧
  conforms ContentBlockDelta
    (VDict ({[ "text" := VStr "Hello" ]}
            ∪ {[ "toolUse" := VDict {[ "input" := VStr "{" ]} ]})) = true.
Proof.
  split; [vm_compute; reflexivity|].
  apply (ContentBlockDelta_keys_optional {[ "text" := VStr "Hello" ]}).
  - vm_compute. reflexivity.
  - vm_compute. reflexivity.
Defined.

(** C8 as stated fails on the declaration: a contentBlockDelta payload
    whose delta holds no variant, and one whose delta holds two, conform. *)
Lemma ContentBlockDelta_not_exactly_one_variant :
  conforms ContentBlockDeltaEvent
    (VDict {[ "delta" := VDict ∅ ]}) = true ∧
  count_keys delta_keys (VDict ∅) = 0%nat ∧
  conforms ContentBlockDeltaEvent
    (VDict {[ "delta" :=
                VDict {[ "text" := VStr "a";
                         "toolUse" := VDict {[ "input" := VStr "b" ]} ]} ]})
  = true ∧
  count_keys delta_keys
    (VDict {[ "text" := VStr "a";
              "toolUse" := VDict {[ "input" := VStr "b" ]} ]}) = 2%nat.
Proof. vm_compute. repeat split. Qed.

(** C9, as the declaration has it: [ContentBlockStartEvent] is declared
    with [total=False], so both [start] and [contentBlockIndex] are
    optional keys, and no other key is admitted; [contentBlockIndex] may
    be set to any integer, negative ones included, or to None, and to
    nothing else: the value it holds in a conforming payload is an int (a
    bool counts as an int) or None. *)
Theorem ContentBlockStartEvent_keys_optional (imp : Imports)
    (d : gmap string value) :
  conforms (ContentBlockStartEvent imp) (VDict d) = true →
  (∀ k, has_key k (VDict d) = true → k ∈ ["contentBlockIndex"; "start"]) ∧
  (∀ k, conforms (ContentBlockStartEvent imp) (VDict (delete k d)) = true) ∧
  (∀ n : Z, conforms (ContentBlockStartEvent imp)
              (VDict (<["contentBlockIndex" := VInt n]> d)) = true) ∧
  conforms (ContentBlockStartEvent imp)
    (VDict (<["contentBlockIndex" := VNone]> d)) = true ∧
  (∀ x, conforms (ContentBlockStartEvent imp)
          (VDict (<["contentBlockIndex" := x]> d)) = true ↔
        (∃ n, x = VInt n) ∨ (∃ b, x = VBool b) ∨ x = VNone) ∧
  (∀ x, d !! "contentBlockIndex" = Some x →
        (∃ n, x = VInt n) ∨ (∃ b, x = VBool b) ∨ x = VNone).
Proof.
  intros Hc.
  assert (∀ x, conforms (Optional AInt) x = true →
               conforms (ContentBlockStartEvent imp)
                 (VDict (<["contentBlockIndex" := x]> d)) = true) as Hset.
  { intros x Hx. apply conforms_typed_insert; [|set_solver|done].
    intros f Hin Hk. cbn in Hin.
    apply elem_of_cons in Hin as [->|Hin]; [done|].
    apply list_elem_of_singleton in Hin as ->. discriminate Hk. }
  assert (∀ x, conforms (Optional AInt) x = true →
               (∃ n, x = VInt n) ∨ (∃ b, x = VBool b) ∨ x = VNone) as Hint.
  { intros x Hx. destruct x; try discriminate Hx; eauto. }
  assert (∀ e x, conforms (ContentBlockStartEvent imp) (VDict e) = true →
                 e !! "contentBlockIndex" = Some x →
                 conforms (Optional AInt) x = true) as Hget.
  { intros e x [Hf _]%conforms_typed_spec Hx.
    apply Forall_inv in Hf. unfold field_ok in Hf. cbn [fst snd] in Hf.
    by rewrite Hx in Hf. }
  split; [|split; [|split; [|split; [|split]]]].
  - intros k Hk. exact (typed_dict_keys _ _ _ _ Hc Hk).
  - intros k. by apply partial_delete.
  - intros n. by apply Hset.
  - by apply Hset.
  - intros x. split.
    + intros Hc'. apply Hint. apply (Hget _ x Hc'). apply lookup_insert_eq.
    + intros [[n ->]|[[b ->]| ->]]; by apply Hset.
  - intros x Hx. apply Hint. by apply (Hget d).
Qed.

Lemma ContentBlockStartEvent_keys_optional_witness :
  conforms (ContentBlockStartEvent wire_imports)
    (VDict {[ "start" := VDict ∅ ]}) = true ∧
  conforms (ContentBlockStartEvent wire_imports)
    (VDict (delete "start" {[ "start" := VDict ∅ ]})) = true.
Proof.
  assert (conforms (ContentBlockStartEvent wire_imports)
            (VDict {[ "start" := VDict ∅ ]}) = true) as H
    by (vm_compute; reflexivity).
  split; [exact H|].
  exact (proj1 (proj2
    (ContentBlockStartEvent_keys_optional wire_imports _ H)) "start").
Defined.

(** C9 as stated fails on the declaration: a contentBlockStart payload
    without [start] conforms, and so does one whose [contentBlockIndex] is
    negative. *)
Lemma ContentBlockStartEvent_start_not_required :
  conforms (ContentBlockStartEvent wire_imports) (VDict ∅) = true ∧
  has_key "start" (VDict ∅) = false ∧
  conforms (ContentBlockStartEvent wire_imports)
    (VDict {[ "contentBlockIndex" := VInt (-1);
              "start" := VDict ∅ ]}) = true.
Proof. vm_compute. repeat split. Qed.

End StreamingFacts.

(** * Properties of the aggregation engine *)

Module EngineFacts.
Import Engine.
Local Open Scope list_scope.

Section Facts.
Context {Metrics Trace JSON : Type}.

Local Abbreviation State := (@State Metrics Trace JSON).
Local Abbreviation Event := (@Event Metrics Trace JSON).

Lemma feed_app (s : State) (evs1 evs2 : list Event) :
  feed s (evs1 ++ evs2) =
  match feed s evs1 with
  | (s', NoResult) => feed s' evs2
  | stop => stop
  end.
Proof.
  revert s. induction evs1 as [|ev evs1 IH]; intros s; [done|].
  cbn [app feed]. destruct (consume s ev) as [s' [|m|e]]; [apply IH|done..].
Qed.

Lemma consume_steady (s s' : State) (ev : Event) :
  steady s → consume s ev = (s', NoResult) → steady s'.
Proof.
  intros Hs Hc. unfold consume in Hc. destruct (phase s) eqn:Hp.
  - destruct ev; try discriminate. injection Hc as <-. by left.
  - clear Hs. left. unfold consume_open in Hc. destruct ev; try discriminate.
    + destruct (find_open _ _); [discriminate|]. by injection Hc as <-.
    + destruct (addressed _ _) as [[i a]|]; [|discriminate].
      destruct (accumulate a delta) as [[]|a']; try discriminate.
      by injection Hc as <-.
    + destruct (addressed _ _) as [[i a]|]; [|discriminate].
      by injection Hc as <-.
    + destruct (open_blocks s); discriminate.
    + by injection Hc as <-.
    + destruct (placeholder _ _ _); by injection Hc as <-.
  - destruct ev; try discriminate. injection Hc as <-.
    destruct Hs as [Hs|[_ Hs]]; [congruence|]. right. split; [|done].
    cbn. by rewrite Hp.
  - discriminate.
Qed.

Lemma feed_steady (s s' : State) (evs : list Event) :
  steady s → feed s evs = (s', NoResult) → steady s'.
Proof.
  revert s. induction evs as [|ev evs IH]; intros s Hs Hf.
  - by injection Hf as <-.
  - cbn [feed] in Hf. destruct (consume s ev) as [s1 [|m|e]] eqn:Hc;
      try discriminate.
    eapply IH; [|done]. by eapply consume_steady.
Qed.

Lemma initial_steady : steady (initial : State).
Proof. right. by split. Qed.

(** What one accepted event does to the content: a stop event appends the
    block it closes, a redaction puts its placeholder in place of the
    content, every other event leaves the content as it is. *)
Lemma consume_content (s s' : State) (ev : Event) :
  consume s ev = (s', NoResult) →
  content s' =
  match closed_by s ev, redacted_by s ev with
  | Some b, _ => content s ++ [b]
  | None, Some p => [p]
  | None, None => content s
  end.
Proof.
  intros Hc. unfold consume in Hc. destruct (phase s) eqn:Hp.
  - destruct ev; try discriminate. by injection Hc as <-.
  - unfold consume_open in Hc. destruct ev; try discriminate; cbn.
    + destruct (find_open _ _); [discriminate|]. by injection Hc as <-.
    + destruct (addressed _ _) as [[i a]|]; [|discriminate].
      destruct (accumulate a delta) as [[]|a']; try discriminate.
      by injection Hc as <-.
    + destruct (addressed _ _) as [[i a]|]; [|discriminate].
      by injection Hc as <-.
    + destruct (open_blocks s); discriminate.
    + by injection Hc as <-.
    + destruct (placeholder _ _ _); by injection Hc as <-.
  - destruct ev; try discriminate. by injection Hc as <-.
  - discriminate.
Qed.

Lemma feed_content (s s' : State) (evs : list Event) :
  feed s evs = (s', NoResult) →
  content s' = close_order s evs (content s).
Proof.
  revert s. induction evs as [|ev evs IH]; intros s Hf.
  - by injection Hf as <-.
  - cbn [feed close_order] in *.
    destruct (consume s ev) as [s1 [|m|e]] eqn:Hc; try discriminate.
    rewrite (IH _ Hf). cbn [fst]. by rewrite (consume_content _ _ _ Hc).
Qed.

(** Without a redaction the content grows by the closed blocks only. *)
Lemma close_order_closes (s : State) (evs : list Event) acc :
  Forall (λ ev, is_redaction ev = false) evs →
  close_order s evs acc = acc ++ closes s evs.
Proof.
  intros Hnr. revert s acc.
  induction Hnr as [|ev evs Hev _ IH]; intros s acc.
  - cbn. by rewrite app_nil_r.
  - cbn [close_order closes]. rewrite IH.
    destruct (closed_by s ev) as [b|]; [by rewrite <- app_assoc|].
    by destruct ev.
Qed.

(** A messageStop that yields a message yields the content of the state. *)
Lemma consume_final (s s' : State) reason extra m :
  consume s (EvMessageStop reason extra) = (s', FinalMessage m) →
  msg_content m = content s ∧ msg_stopReason m = reason ∧
  msg_role m = role s ∧ phase s' = Closed.
Proof.
  unfold consume. destruct (phase s); try discriminate.
  cbn. destruct (open_blocks s); [|discriminate].
  intros H. injection H as <- <-. done.
Qed.

(** C2: for an event sequence that is accepted and ends in the messageStop
    that yields the message, the content of the message is the sequence of
    blocks closed by the contentBlockStop events, in the order of those
    events (restarted from the placeholder at a redaction); with no
    redaction it is exactly the blocks of the stop events in stop order.
    The order of the contentBlockStart events plays no part. *)
Theorem content_in_close_order (evs : list Event) (s s' : State)
    reason extra m :
  feed initial evs = (s, NoResult) →
  consume s (EvMessageStop reason extra) = (s', FinalMessage m) →
  feed initial (evs ++ [EvMessageStop reason extra]) = (s', FinalMessage m) ∧
  msg_content m = close_order initial evs [] ∧
  (Forall (λ ev, is_redaction ev = false) evs →
   msg_content m = closes initial evs).
Proof.
  intros Hf Hc. split; [|split].
  - rewrite feed_app, Hf. cbn [feed]. by rewrite Hc.
  - apply consume_final in Hc as [-> _]. by rewrite (feed_content _ _ _ Hf).
  - intros Hnr. apply consume_final in Hc as [-> _].
    rewrite (feed_content _ _ _ Hf).
    by rewrite close_order_closes.
Qed.

(** C3: when messageStop arrives in a stream that still has a content
    block open, the stream ends with the error [IncompleteStream] and the
    aggregator is [Errored]; no message is returned. *)
Theorem messageStop_with_open_block_fails (evs : list Event) (s : State)
    reason extra :
  feed initial evs = (s, NoResult) →
  open_blocks s ≠ [] →
  feed initial (evs ++ [EvMessageStop reason extra])
  = (set_phase Errored s, Failure IncompleteStream) ∧
  ∀ s' m, feed initial (evs ++ [EvMessageStop reason extra])
          ≠ (s', FinalMessage m).
Proof.
  intros Hf Hopen.
  assert (feed initial (evs ++ [EvMessageStop reason extra])
          = (set_phase Errored s, Failure IncompleteStream)) as Hr.
  { rewrite feed_app, Hf. cbn [feed].
    destruct (feed_steady _ _ _ initial_steady Hf) as [Hp|[_ Hno]]; [|done].
    unfold consume. rewrite Hp. cbn.
    by destruct (open_blocks s). }
  split; [done|]. intros s' m. rewrite Hr. discriminate.
Qed.

Lemma merge_from (c : @Collector Metrics Trace)
    (evs : list (Metrics * option Trace * Usage)) :
  let c' := fold_left (λ c e, merge c e.1.1 e.1.2 e.2) evs c in
  inputTokens (col_usage c')
  = (inputTokens (col_usage c) + total_of inputTokens evs)%Z ∧
  outputTokens (col_usage c')
  = (outputTokens (col_usage c) + total_of outputTokens evs)%Z ∧
  totalTokens (col_usage c')
  = (totalTokens (col_usage c) + total_of totalTokens evs)%Z ∧
  col_metrics c' = match last (map (λ e, e.1.1) evs) with
                   | Some m => Some m
                   | None => col_metrics c
                   end.
Proof.
  revert c. induction evs as [|e evs IH]; intros c; cbn zeta.
  - unfold total_of. cbn. repeat split; lia.
  - cbn [fold_left]. destruct (IH (merge c e.1.1 e.1.2 e.2)) as (H1&H2&H3&H4).
    rewrite H1, H2, H3, H4. unfold total_of. cbn [map foldr merge col_usage
      col_metrics add_usage inputTokens outputTokens totalTokens].
    repeat split; try lia.
    destruct evs as [|e' evs']; [reflexivity|]. cbn [map].
    rewrite last_cons_cons.
    destruct (last (_ :: _)) eqn:E; [done|]. by apply last_None in E.
Qed.

(** C4: over the metadata events of one stream, each usage counter of the
    merged result is the sum of that counter over all events, and the
    merged metrics are those of the last event. *)
Theorem merge_all_sums_usage_keeps_last_metrics
    (evs : list (Metrics * option Trace * Usage)) :
  inputTokens (col_usage (merge_all evs)) = total_of inputTokens evs ∧
  outputTokens (col_usage (merge_all evs)) = total_of outputTokens evs ∧
  totalTokens (col_usage (merge_all evs)) = total_of totalTokens evs ∧
  col_metrics (merge_all evs) = last (map (λ e, e.1.1) evs).
Proof.
  destruct (merge_from empty_collector evs) as (H1&H2&H3&H4).
  unfold merge_all. rewrite H1, H2, H3, H4. cbn.
  repeat split; try done. by destruct (last _).
Qed.

(** In an open or closed stream a metadata event is merged into the
    collector of the aggregator. *)
Lemma consume_metadata (s : State) m t u :
  phase s = MessageOpen ∨ phase s = Closed →
  consume s (EvMetadata m t u)
  = (set_collector (merge (collector s) m t u) s, NoResult).
Proof. unfold consume. by intros [-> | ->]. Qed.

(** C5: the retry hint of a classified exception is set exactly for the
    kinds [Throttling] and [ServiceUnavailable], and is unset exactly for
    [InternalServer], [ModelStreamError] and [Validation]. *)
Theorem retryable_iff_throttling_or_unavailable (t : ExceptionTag)
    (p : ExceptionPayload) :
  (retryable (classify t p) = true ↔
   kind (classify t p) = Throttling ∨
   kind (classify t p) = ServiceUnavailable) ∧
  (retryable (classify t p) = false ↔
   kind (classify t p) = InternalServer ∨
   kind (classify t p) = ModelStreamError ∨
   kind (classify t p) = Validation).
Proof. destruct t; cbn; (split; split); intuition congruence. Qed.

(** An exception event in an open stream is answered with its
    classification. *)
Lemma consume_exception (s : State) t p :
  phase s = MessageOpen →
  consume s (EvException t p)
  = (set_phase Errored s, Failure (ProviderException (classify t p))).
Proof. unfold consume. by intros ->. Qed.

End Facts.

(** Scenario A of the specification. *)
Example scenario_A :
  feed (initial : @State unit unit unit)
    [EvMessageStart "assistant";
     EvContentBlockStart (Some 0) StartText;
     EvContentBlockDelta (Some 0) (DeltaText "Hello");
     EvContentBlockDelta (Some 0) (DeltaText " world");
     EvContentBlockStop (Some 0);
     EvMessageStop "end_turn" None]
  = ({| phase := Closed; role := "assistant";
        content := [BlockText "Hello world"]; open_blocks := [];
        starts := 1; collector := empty_collector;
        result := Some {| msg_role := "assistant";
                          msg_content := [BlockText "Hello world"];
                          msg_stopReason := "end_turn";
                          msg_additionalModelResponseFields := None |} |},
     FinalMessage {| msg_role := "assistant";
                     msg_content := [BlockText "Hello world"];
                     msg_stopReason := "end_turn";
                     msg_additionalModelResponseFields := None |}).
Proof. reflexivity. Qed.

(** Blocks opened as 0 then 1 and closed as 1 then 0 come out as 1, 0. *)
Example closed_out_of_open_order :
  (feed (initial : @State unit unit unit)
     [EvMessageStart "assistant";
      EvContentBlockStart (Some 0) StartText;
      EvContentBlockStart (Some 1) (StartToolUse "t1" "search");
      EvContentBlockDelta (Some 0) (DeltaText "zero");
      EvContentBlockDelta (Some 1) (DeltaToolUse "[1,");
      EvContentBlockDelta (Some 1) (DeltaToolUse "2]");
      EvContentBlockStop (Some 1);
      EvContentBlockStop (Some 0);
      EvMessageStop "tool_use" None]).2
  = FinalMessage {| msg_role := "assistant";
                    msg_content := [BlockToolUse "t1" "search" "[1,2]";
                                    BlockText "zero"];
                    msg_stopReason := "tool_use";
                    msg_additionalModelResponseFields := None |}.
Proof. reflexivity. Qed.

(** The sum law of the specification: 10 then 5 input tokens give 15. *)
Example usage_10_then_5 :
  inputTokens
    (col_usage
       (merge_all
          [(tt, @None unit,
            {| inputTokens := 10; outputTokens := 0; totalTokens := 10 |});
           (tt, None,
            {| inputTokens := 5; outputTokens := 2; totalTokens := 7 |})]))
  = 15%Z.
Proof. reflexivity. Qed.

Lemma content_in_close_order_witness :
  feed (initial : @State unit unit unit)
    [EvMessageStart "assistant";
     EvContentBlockStart (Some 0) StartText;
     EvContentBlockStart (Some 1) StartText;
     EvContentBlockDelta (Some 0) (DeltaText "a");
     EvContentBlockDelta (Some 1) (DeltaText "b");
     EvContentBlockStop (Some 1);
     EvContentBlockStop (Some 0)]
  = ({| phase := MessageOpen; role := "assistant";
        content := [BlockText "b"; BlockText "a"]; open_blocks := [];
        starts := 2; collector := empty_collector; result := None |},
     NoResult) ∧
  [BlockText "b"; BlockText "a"]
  = closes (initial : @State unit unit unit)
      [EvMessageStart "assistant";
       EvContentBlockStart (Some 0) StartText;
       EvContentBlockStart (Some 1) StartText;
       EvContentBlockDelta (Some 0) (DeltaText "a");
       EvContentBlockDelta (Some 1) (DeltaText "b");
       EvContentBlockStop (Some 1);
       EvContentBlockStop (Some 0)].
Proof.
  split; [reflexivity|].
  refine (proj2 (proj2 (content_in_close_order
    [EvMessageStart "assistant";
     EvContentBlockStart (Some 0) StartText;
     EvContentBlockStart (Some 1) StartText;
     EvContentBlockDelta (Some 0) (DeltaText "a");
     EvContentBlockDelta (Some 1) (DeltaText "b");
     EvContentBlockStop (Some 1);
     EvContentBlockStop (Some 0)]
    _ _ "end_turn" None
    {| msg_role := "assistant";
       msg_content := [BlockText "b"; BlockText "a"];
       msg_stopReason := "end_turn";
       msg_additionalModelResponseFields := None |}
    eq_refl eq_refl)) _).
  repeat constructor.
Defined.

Lemma messageStop_with_open_block_fails_witness :
  open_blocks
    {| phase := MessageOpen; role := "assistant"; content := [];
       open_blocks := [(0, AsmText "Hel")]; starts := 1;
       collector := @empty_collector unit unit;
       result := @None (@Message unit) |} ≠ [] ∧
  feed (initial : @State unit unit unit)
    ([EvMessageStart "assistant";
      EvContentBlockStart (Some 0) StartText;
      EvContentBlockDelta (Some 0) (DeltaText "Hel")]
     ++ [EvMessageStop "end_turn" None])
  = (set_phase Errored
       {| phase := MessageOpen; role := "assistant"; content := [];
          open_blocks := [(0, AsmText "Hel")]; starts := 1;
          collector := empty_collector; result := None |},
     Failure IncompleteStream).
Proof.
  split; [discriminate|].
  apply (messageStop_with_open_block_fails
    [EvMessageStart "assistant";
     EvContentBlockStart (Some 0) StartText;
     EvContentBlockDelta (Some 0) (DeltaText "Hel")]).
  - reflexivity.
  - discriminate.
Defined.

End EngineFacts.

(** * The exception events, from the wire to their classification *)

Module ExceptionFacts.
Import Py PyFacts.

(** A value conforms to [ExceptionEvent] exactly when it is a dict with
    the single key [message], holding a string. *)
Lemma ExceptionEvent_shape (v : value) :
  conforms Streaming.ExceptionEvent v = true ↔
  ∃ s, v = VDict {[ "message" := VStr s ]}.
Proof.
  split.
  - intros Hc. destruct (conforms_typed_dict _ _ Hc) as [d ->].
    apply conforms_typed_spec in Hc as [Hf Hk].
    apply Forall_inv in Hf. unfold field_ok in Hf. cbn in Hf.
    destruct (d !! "message") as [x|] eqn:Hm; [|discriminate].
    destruct x; try discriminate. exists s. f_equal.
    apply map_eq. intros k. destruct (decide (k = "message")) as [->|Hne].
    + by rewrite lookup_singleton_eq.
    + rewrite lookup_singleton_ne by done.
      destruct (d !! k) eqn:Hd; [|done].
      exfalso. apply Hne. specialize (Hk k (ltac:(eauto))).
      cbn in Hk. by apply list_elem_of_singleton in Hk.
  - intros [s ->]. vm_compute. reflexivity.
Qed.

(** C10: the keys internalServerException, serviceUnavailableException,
    throttlingException and validationException of [StreamEvent] are all
    declared with the one annotation [ExceptionEvent], whose values are the
    dicts with the single key [message] holding a string; the kind the
    classifier gives an exception event is that of its wire tag whatever
    the payload, and distinct tags have distinct kinds. *)
Theorem exception_kind_determined_by_tag :
  (∀ imp, Forall (λ t, annotation_of (Engine.tag_key t)
                         (Streaming.StreamEvent imp)
                       = Some Streaming.ExceptionEvent)
            [Engine.internalServerException;
             Engine.serviceUnavailableException;
             Engine.throttlingException;
             Engine.validationException]) ∧
  (∀ v, conforms Streaming.ExceptionEvent v = true ↔
        ∃ s, v = VDict {[ "message" := VStr s ]}) ∧
  (∀ t p p', Engine.kind (Engine.classify t p)
             = Engine.kind (Engine.classify t p')) ∧
  (∀ t p, Engine.kind (Engine.classify t p) = Engine.kind_of_tag t) ∧
  (∀ t t', Engine.kind_of_tag t = Engine.kind_of_tag t' ↔ t = t').
Proof.
  split; [|split; [|split; [|split]]].
  - intros imp. repeat constructor.
  - apply ExceptionEvent_shape.
  - reflexivity.
  - reflexivity.
  - intros t t'. split; [|by intros ->]. by destruct t, t'.
Qed.

(** The payload of modelStreamErrorException is declared apart: it has two
    more required keys. *)
Example ModelStreamErrorEvent_keys imp :
  annotation_of "modelStreamErrorException" (Streaming.StreamEvent imp)
  = Some Streaming.ModelStreamErrorEvent ∧
  map fst (fields_of Streaming.ModelStreamErrorEvent)
  = ["message"; "originalMessage"; "originalStatusCode"].
Proof. split; reflexivity. Qed.

End ExceptionFacts.

(** * Further properties of the declarations *)

Module DeclarationFacts.
Import Py Streaming PyFacts.

(** ** What a class declaration means for its values *)

(** The value under a declared key conforms to the annotation of the key. *)
Lemma conforms_typed_lookup fs d k req a x :
  conforms (ATyped fs) (VDict d) = true →
  (k, (req, a)) ∈ fs → d !! k = Some x → conforms a x = true.
Proof.
  intros [Hf _]%conforms_typed_spec Hin Hx.
  rewrite Forall_forall in Hf. specialize (Hf _ Hin).
  unfold field_ok in Hf. cbn in Hf. by rewrite Hx in Hf.
Qed.

(** A required key is held by every conforming value. *)
Lemma conforms_typed_required fs d k a :
  conforms (ATyped fs) (VDict d) = true →
  (k, (true, a)) ∈ fs → ∃ x, d !! k = Some x ∧ conforms a x = true.
Proof.
  intros [Hf _]%conforms_typed_spec Hin.
  rewrite Forall_forall in Hf. specialize (Hf _ Hin).
  unfold field_ok in Hf. cbn in Hf.
  destruct (d !! k) as [x|]; [eauto|discriminate].
Qed.

(** A dict with one key only, declared and optional or the only required
    one, conforms when its value does. *)
Lemma conforms_typed_singleton fs k x :
  (∀ f, f ∈ fs → if decide (f.1 = k) then conforms f.2.2 x = true
                 else f.2.1 = false) →
  k ∈ map fst fs →
  conforms (ATyped fs) (VDict {[ k := x ]}) = true.
Proof.
  intros Hfs Hk. apply conforms_typed_spec. split.
  - rewrite Forall_forall. intros f Hin. specialize (Hfs f Hin).
    unfold field_ok. destruct (decide (f.1 = k)) as [->|Hne].
    + by rewrite lookup_singleton_eq.
    + rewrite lookup_singleton_ne by done. by rewrite Hfs.
  - intros j [y Hy]. apply lookup_singleton_Some in Hy as [<- _]. done.
Qed.

(** The values of a class with one required key. *)
Lemma total_single_shape k a v :
  conforms (TypedDict true [] [(k, a)]) v = true ↔
  ∃ x, v = VDict {[ k := x ]} ∧ conforms a x = true.
Proof.
  split.
  - intros Hc. destruct (conforms_typed_dict _ _ Hc) as [d ->].
    destruct (conforms_typed_required _ _ k a Hc) as (x & Hx & Hax);
      [by left|].
    exists x. split; [|done]. f_equal. apply map_eq. intros j.
    destruct (decide (j = k)) as [->|Hne].
    + by rewrite lookup_singleton_eq.
    + rewrite lookup_singleton_ne by done.
      destruct (d !! j) eqn:Hj; [|done]. exfalso. apply Hne.
      assert (has_key j (VDict d) = true) as Hh.
      { cbn. apply bool_decide_eq_true. eauto. }
      pose proof (typed_dict_keys _ _ _ _ Hc Hh) as Hin.
      by apply list_elem_of_singleton in Hin.
  - intros (x & -> & Hx). apply conforms_typed_singleton; [|by left].
    intros f Hin. apply list_elem_of_singleton in Hin as ->. cbn.
    by rewrite decide_True.
Qed.

Lemma conforms_optional a x :
  conforms (Optional a) x = true ↔ conforms a x = true ∨ x = VNone.
Proof.
  unfold Optional. cbn [conforms existsb].
  rewrite !orb_true_iff. split.
  - intros [H|[H|H]]; [by left| |done]. right. by destruct x.
  - intros [H| ->]; [by left|]. right. by left.
Qed.

Lemma conforms_str x : conforms AStr x = true ↔ ∃ s, x = VStr s.
Proof. split; [destruct x; try discriminate; eauto|by intros [s ->]]. Qed.

Lemma conforms_bytes x : conforms ABytes x = true ↔ ∃ bs, x = VBytes bs.
Proof. split; [destruct x; try discriminate; eauto|by intros [s ->]]. Qed.

Lemma conforms_int x :
  conforms AInt x = true ↔ (∃ n, x = VInt n) ∨ (∃ b, x = VBool b).
Proof.
  split; [destruct x; try discriminate; eauto|].
  by intros [[n ->]|[b ->]].
Qed.

(** Setting a declared key of a conforming value: the result conforms
    exactly when the new value conforms to the annotation of the key. *)
Lemma conforms_typed_set fs d k req a x :
  NoDup (map fst fs) →
  (k, (req, a)) ∈ fs →
  conforms (ATyped fs) (VDict d) = true →
  conforms (ATyped fs) (VDict (<[k:=x]> d)) = true ↔ conforms a x = true.
Proof.
  intros Hnd Hin Hc. split.
  - intros Hc'. eapply conforms_typed_lookup; [exact Hc'|exact Hin|].
    apply lookup_insert_eq.
  - intros Hx. apply conforms_typed_insert; [| |done].
    + intros f Hf Hk.
      assert (f = (k, (req, a))) as ->; [|done].
      clear -Hnd Hin Hf Hk. induction fs as [|g fs IH]; [by inversion Hin|].
      cbn in Hnd. apply NoDup_cons in Hnd as [Hg Hnd].
      apply elem_of_cons in Hin as [Hin|Hin];
        apply elem_of_cons in Hf as [Hf|Hf].
      * congruence.
      * exfalso. apply Hg. rewrite <- Hin. cbn. rewrite <- Hk.
        apply list_elem_of_fmap. eauto.
      * exfalso. apply Hg. rewrite <- Hf, Hk.
        apply list_elem_of_fmap. exists (k, (req, a)). eauto.
      * by apply IH.
    + apply list_elem_of_fmap. exists (k, (req, a)). eauto.
Qed.

(** The declared keys of the classes are pairwise distinct. *)
Lemma StreamEvent_keys_distinct imp :
  NoDup (map fst (fields_of (StreamEvent imp))).
Proof.
  change (NoDup variant_keys).
  apply (bool_decide_unpack (NoDup variant_keys)). vm_compute. exact I.
Qed.

(** Case analysis on the keys of a class body given as a literal list. *)
Ltac each_field Hin :=
  cbn in Hin;
  repeat (apply elem_of_cons in Hin as [->|Hin]);
  [..|by inversion Hin].

(** ** MessageStartEvent *)

(** X1: [MessageStartEvent] is a total class: its values are exactly the
    dicts with the single key [role] holding a value of type [Role]; a
    dict without [role], or with any further key, does not conform. *)
Theorem MessageStartEvent_shape (imp : Imports) (v : value) :
  conforms (MessageStartEvent imp) v = true ↔
  ∃ x, v = VDict {[ "role" := x ]} ∧ conforms (Role imp) x = true.
Proof. apply total_single_shape. Qed.

(** ** ContentBlockStopEvent *)

(** X2: the values of [ContentBlockStopEvent] are the empty dict and the
    dicts with the single key [contentBlockIndex] holding an int (of any
    sign; a bool counts as an int) or None. *)
Theorem ContentBlockStopEvent_shape (v : value) :
  conforms ContentBlockStopEvent v = true ↔
  v = VDict ∅ ∨
  ∃ x, v = VDict {[ "contentBlockIndex" := x ]} ∧
       ((∃ n, x = VInt n) ∨ (∃ b, x = VBool b) ∨ x = VNone).
Proof.
  split.
  - intros Hc. destruct (conforms_typed_dict _ _ Hc) as [d ->].
    assert (∀ j, j ≠ "contentBlockIndex" → d !! j = None) as Hother.
    { intros j Hne. destruct (d !! j) eqn:Hj; [|done]. exfalso. apply Hne.
      assert (has_key j (VDict d) = true) as Hh.
      { cbn. apply bool_decide_eq_true. eauto. }
      pose proof (typed_dict_keys _ _ _ _ Hc Hh) as Hin.
      by apply list_elem_of_singleton in Hin. }
    destruct (d !! "contentBlockIndex") as [x|] eqn:Hx.
    + right. exists x. split.
      * f_equal. apply map_eq. intros j.
        destruct (decide (j = "contentBlockIndex")) as [->|Hne].
        -- by rewrite lookup_singleton_eq.
        -- rewrite lookup_singleton_ne by done. by apply Hother.
      * assert (conforms (Optional AInt) x = true) as Ho.
        { eapply conforms_typed_lookup; [exact Hc| |exact Hx]. left. }
        apply conforms_optional in Ho as [Ho| ->]; [|by right; right].
        apply conforms_int in Ho as [Hn|Hb]; [by left|by right; left].
    + left. f_equal. apply map_eq. intros j. rewrite lookup_empty.
      destruct (decide (j = "contentBlockIndex")) as [->|Hne]; [done|].
      by apply Hother.
  - intros [->|(x & -> & Hx)]; [apply partial_empty|].
    apply conforms_typed_singleton; [|by left].
    intros f Hin. each_field Hin. cbn. rewrite decide_True by done.
    by destruct Hx as [[n ->]|[[b ->]| ->]].
Qed.

(** ** The delta classes *)

(** X3: a [ContentBlockDeltaText] value is exactly a dict with the single
    key [text] holding a str, and every such value is a conforming
    [ContentBlockDelta] as it stands, which in turn is a conforming
    [delta] of a contentBlockDelta event of the stream. *)
Theorem ContentBlockDeltaText_is_delta (imp : Imports) (v : value) :
  conforms ContentBlockDeltaText v = true →
  (∃ s, v = VDict {[ "text" := VStr s ]}) ∧
  conforms ContentBlockDelta v = true ∧
  conforms ContentBlockDeltaEvent (VDict {[ "delta" := v ]}) = true ∧
  conforms (StreamEvent imp)
    (VDict {[ "contentBlockDelta" := VDict {[ "delta" := v ]} ]}) = true.
Proof.
  intros (x & -> & [s ->]%conforms_str)%total_single_shape.
  assert (conforms ContentBlockDelta (VDict {[ "text" := VStr s ]}) = true)
    as Hd.
  { apply conforms_typed_singleton; [|set_solver].
    intros f Hin. each_field Hin; done. }
  assert (conforms ContentBlockDeltaEvent
            (VDict {[ "delta" := VDict {[ "text" := VStr s ]} ]}) = true)
    as He.
  { apply conforms_typed_singleton; [|set_solver].
    intros f Hin. each_field Hin; done. }
  split; [eauto|]. split; [done|]. split; [done|].
  apply conforms_typed_singleton; [|set_solver].
  intros f Hin. each_field Hin; done.
Qed.

Lemma ContentBlockDeltaText_is_delta_witness :
  conforms ContentBlockDeltaText (VDict {[ "text" := VStr "Hello" ]}) = true ∧
  conforms (StreamEvent wire_imports)
    (VDict {[ "contentBlockDelta" :=
                VDict {[ "delta" := VDict {[ "text" := VStr "Hello" ]} ]} ]})
  = true.
Proof.
  assert (conforms ContentBlockDeltaText
            (VDict {[ "text" := VStr "Hello" ]}) = true) as H
    by (vm_compute; reflexivity).
  split; [exact H|].
  exact (proj2 (proj2 (proj2
    (ContentBlockDeltaText_is_delta wire_imports _ H)))).
Defined.

(** X4: a [ContentBlockDeltaToolUse] value is exactly a dict with the
    single key [input] holding a str; it is a conforming [ContentBlockDelta]
    once put under the key [toolUse], and that delta is a conforming
    [delta] of a contentBlockDelta event of the stream. *)
Theorem ContentBlockDeltaToolUse_wraps (imp : Imports) (v : value) :
  conforms ContentBlockDeltaToolUse v = true →
  (∃ s, v = VDict {[ "input" := VStr s ]}) ∧
  conforms ContentBlockDelta (VDict {[ "toolUse" := v ]}) = true ∧
  conforms (StreamEvent imp)
    (VDict {[ "contentBlockDelta" :=
                VDict {[ "delta" := VDict {[ "toolUse" := v ]} ]} ]}) = true.
Proof.
  intros Hv.
  assert (conforms ContentBlockDelta (VDict {[ "toolUse" := v ]}) = true)
    as Hd.
  { apply conforms_typed_singleton; [|set_solver].
    intros f Hin. each_field Hin; done. }
  assert (conforms ContentBlockDeltaEvent
            (VDict {[ "delta" := VDict {[ "toolUse" := v ]} ]}) = true)
    as He.
  { apply conforms_typed_singleton; [|set_solver].
    intros f Hin. each_field Hin; done. }
  split; [|split; [done|]].
  - apply total_single_shape in Hv as (x & -> & [s ->]%conforms_str). eauto.
  - apply conforms_typed_singleton; [|set_solver].
    intros f Hin. each_field Hin; done.
Qed.

Lemma ContentBlockDeltaToolUse_wraps_witness :
  conforms ContentBlockDeltaToolUse (VDict {[ "input" := VStr "[1," ]}) = true ∧
  conforms ContentBlockDelta
    (VDict {[ "toolUse" := VDict {[ "input" := VStr "[1," ]} ]}) = true.
Proof.
  assert (conforms ContentBlockDeltaToolUse
            (VDict {[ "input" := VStr "[1," ]}) = true) as H
    by (vm_compute; reflexivity).
  split; [exact H|].
  exact (proj1 (proj2 (ContentBlockDeltaToolUse_wraps wire_imports _ H))).
Defined.

Ltac distinct_keys :=
  cbn; apply (bool_decide_unpack (NoDup _)); vm_compute; exact I.

Ltac declared_key := cbn; repeat first [by left | right].

Lemma optional_str x :
  conforms (Optional AStr) x = true ↔ (∃ s, x = VStr s) ∨ x = VNone.
Proof. by rewrite conforms_optional, conforms_str. Qed.

Lemma optional_bytes x :
  conforms (Optional ABytes) x = true ↔ (∃ bs, x = VBytes bs) ∨ x = VNone.
Proof. by rewrite conforms_optional, conforms_bytes. Qed.

(** X5: in a [ReasoningContentBlockDelta] every key is optional and may
    also be None: given a conforming delta, setting [text] or [signature]
    keeps it conforming exactly for a str or None, setting
    [redactedContent] exactly for bytes or None; a conforming value is a
    conforming [ContentBlockDelta] once put under [reasoningContent]. *)
Theorem ReasoningContentBlockDelta_set (d : gmap string value) :
  conforms ReasoningContentBlockDelta (VDict d) = true →
  (∀ x, conforms ReasoningContentBlockDelta (VDict (<["text" := x]> d))
        = true ↔ (∃ s, x = VStr s) ∨ x = VNone) ∧
  (∀ x, conforms ReasoningContentBlockDelta
          (VDict (<["signature" := x]> d))
        = true ↔ (∃ s, x = VStr s) ∨ x = VNone) ∧
  (∀ x, conforms ReasoningContentBlockDelta
          (VDict (<["redactedContent" := x]> d))
        = true ↔ (∃ bs, x = VBytes bs) ∨ x = VNone) ∧
  conforms ContentBlockDelta (VDict {[ "reasoningContent" := VDict d ]})
  = true.
Proof.
  intros Hc. split; [|split; [|split]].
  - intros x. rewrite <- optional_str.
    apply (conforms_typed_set _ _ _ false); [distinct_keys|declared_key|done].
  - intros x. rewrite <- optional_str.
    apply (conforms_typed_set _ _ _ false); [distinct_keys|declared_key|done].
  - intros x. rewrite <- optional_bytes.
    apply (conforms_typed_set _ _ _ false); [distinct_keys|declared_key|done].
  - apply conforms_typed_singleton; [|set_solver].
    intros f Hin. each_field Hin; done.
Qed.

Lemma ReasoningContentBlockDelta_set_witness :
  conforms ReasoningContentBlockDelta
    (VDict {[ "text" := VStr "because" ]}) = true ∧
  conforms ContentBlockDelta
    (VDict {[ "reasoningContent" := VDict {[ "text" := VStr "because" ]} ]})
  = true.
Proof.
  assert (conforms ReasoningContentBlockDelta
            (VDict {[ "text" := VStr "because" ]}) = true) as H
    by (vm_compute; reflexivity).
  split; [exact H|].
  exact (proj2 (proj2 (proj2 (ReasoningContentBlockDelta_set _ H)))).
Defined.

(** ** RedactContentEvent *)

(** X6: a [RedactContentEvent] holds no key but [redactUserContentMessage]
    and [redactAssistantContentMessage]; both may be left out, and given a
    conforming payload, setting either keeps it conforming exactly for a
    str or None. *)
Theorem RedactContentEvent_set (d : gmap string value) :
  conforms RedactContentEvent (VDict d) = true →
  (∀ k, has_key k (VDict d) = true →
        k ∈ ["redactUserContentMessage"; "redactAssistantContentMessage"]) ∧
  (∀ k, conforms RedactContentEvent (VDict (delete k d)) = true) ∧
  (∀ x, conforms RedactContentEvent
          (VDict (<["redactUserContentMessage" := x]> d))
        = true ↔ (∃ s, x = VStr s) ∨ x = VNone) ∧
  (∀ x, conforms RedactContentEvent
          (VDict (<["redactAssistantContentMessage" := x]> d))
        = true ↔ (∃ s, x = VStr s) ∨ x = VNone).
Proof.
  intros Hc. split; [|split; [|split]].
  - intros k Hk. exact (typed_dict_keys _ _ _ _ Hc Hk).
  - intros k. by apply partial_delete.
  - intros x. rewrite <- optional_str.
    apply (conforms_typed_set _ _ _ false); [distinct_keys|declared_key|done].
  - intros x. rewrite <- optional_str.
    apply (conforms_typed_set _ _ _ false); [distinct_keys|declared_key|done].
Qed.

Lemma RedactContentEvent_set_witness :
  conforms RedactContentEvent
    (VDict {[ "redactAssistantContentMessage" := VStr "[redacted]" ]})
  = true ∧
  conforms RedactContentEvent
    (VDict (<["redactUserContentMessage" := VNone]>
              {[ "redactAssistantContentMessage" := VStr "[redacted]" ]}))
  = true.
Proof.
  assert (conforms RedactContentEvent
            (VDict {[ "redactAssistantContentMessage" := VStr "[redacted]" ]})
          = true) as H by (vm_compute; reflexivity).
  split; [exact H|].
  exact (proj2 (proj1 (proj2 (proj2 (RedactContentEvent_set _ H))) VNone)
           (or_intror eq_refl)).
Defined.

(** ** ModelStreamErrorEvent *)

(** X7: [ModelStreamErrorEvent] inherits [message] from [ExceptionEvent]
    and adds two keys, all three required: a conforming value holds
    exactly [message] and [originalMessage] as strs and
    [originalStatusCode] as an int, and what is left of it without the
    two keys of its own is a conforming [ExceptionEvent]. *)
Theorem ModelStreamErrorEvent_required (d : gmap string value) :
  conforms ModelStreamErrorEvent (VDict d) = true →
  (∀ k, has_key k (VDict d) = true ↔
        k ∈ ["message"; "originalMessage"; "originalStatusCode"]) ∧
  (∃ m, d !! "message" = Some (VStr m)) ∧
  (∃ om, d !! "originalMessage" = Some (VStr om)) ∧
  (∃ c, d !! "originalStatusCode" = Some c ∧
        ((∃ n, c = VInt n) ∨ (∃ b, c = VBool b))) ∧
  conforms ExceptionEvent
    (VDict (delete "originalMessage" (delete "originalStatusCode" d)))
  = true.
Proof.
  intros Hc.
  destruct (conforms_typed_required _ _ "message" AStr Hc)
    as (m & Hm & [sm ->]%conforms_str); [declared_key|].
  destruct (conforms_typed_required _ _ "originalMessage" AStr Hc)
    as (om & Hom & [som ->]%conforms_str); [declared_key|].
  destruct (conforms_typed_required _ _ "originalStatusCode" AInt Hc)
    as (c & Hcode & Hint%conforms_int); [declared_key|].
  assert (∀ k, has_key k (VDict d) = true →
               k ∈ ["message"; "originalMessage"; "originalStatusCode"])
    as Hkeys.
  { intros k Hk. exact (conforms_typed_keys _ _ _ Hc Hk). }
  split; [|split; [eauto|split; [eauto|split; [eauto|]]]].
  - intros k. split; [apply Hkeys|]. intros Hin. cbn.
    apply bool_decide_eq_true. each_field Hin; eauto.
  - apply ExceptionFacts.ExceptionEvent_shape. exists sm. f_equal.
    apply map_eq. intros k.
    destruct (decide (k = "message")) as [->|Hne].
    + rewrite lookup_singleton_eq.
      rewrite lookup_delete_ne, lookup_delete_ne by done. done.
    + rewrite lookup_singleton_ne by done.
      destruct (decide (k = "originalMessage")) as [->|Hne1];
        [by rewrite lookup_delete_eq|].
      rewrite lookup_delete_ne by done.
      destruct (decide (k = "originalStatusCode")) as [->|Hne2];
        [by rewrite lookup_delete_eq|].
      rewrite lookup_delete_ne by done.
      destruct (d !! k) eqn:Hk; [|done]. exfalso.
      assert (has_key k (VDict d) = true) as Hh.
      { cbn. apply bool_decide_eq_true. eauto. }
      apply Hkeys in Hh. each_field Hh; done.
Qed.

Lemma ModelStreamErrorEvent_required_witness :
  conforms ModelStreamErrorEvent
    (VDict {[ "message" := VStr "bad gateway";
              "originalMessage" := VStr "upstream";
              "originalStatusCode" := VInt 502 ]}) = true ∧
  conforms ExceptionEvent
    (VDict (delete "originalMessage"
              (delete "originalStatusCode"
                 {[ "message" := VStr "bad gateway";
                    "originalMessage" := VStr "upstream";
                    "originalStatusCode" := VInt 502 ]}))) = true.
Proof.
  assert (conforms ModelStreamErrorEvent
            (VDict {[ "message" := VStr "bad gateway";
                      "originalMessage" := VStr "upstream";
                      "originalStatusCode" := VInt 502 ]}) = true) as H
    by (vm_compute; reflexivity).
  split; [exact H|].
  exact (proj2 (proj2 (proj2 (proj2 (ModelStreamErrorEvent_required _ H))))).
Defined.

(** ** ContentBlockDelta and StreamEvent: what lies under each key *)

(** X8: in a conforming [ContentBlockDelta], [text] holds a str directly,
    [toolUse] holds exactly a dict with the single key [input] holding a
    str, and [reasoningContent] holds a conforming
    [ReasoningContentBlockDelta], a dict with no key but
    [redactedContent], [signature] and [text]. *)
Theorem ContentBlockDelta_payloads (d : gmap string value) :
  conforms ContentBlockDelta (VDict d) = true →
  (∀ x, d !! "text" = Some x → ∃ s, x = VStr s) ∧
  (∀ x, d !! "toolUse" = Some x → ∃ s, x = VDict {[ "input" := VStr s ]}) ∧
  (∀ x, d !! "reasoningContent" = Some x →
        conforms ReasoningContentBlockDelta x = true ∧
        ∃ r, x = VDict r ∧
             ∀ k, has_key k (VDict r) = true →
                  k ∈ ["redactedContent"; "signature"; "text"]).
Proof.
  intros Hc. split; [|split].
  - intros x Hx. apply conforms_str.
    eapply (conforms_typed_lookup _ _ "text" false); [exact Hc| |exact Hx].
    declared_key.
  - intros x Hx.
    assert (conforms ContentBlockDeltaToolUse x = true) as Ht.
    { eapply (conforms_typed_lookup _ _ "toolUse" false);
        [exact Hc| |exact Hx]. declared_key. }
    apply total_single_shape in Ht as (y & -> & [s ->]%conforms_str). eauto.
  - intros x Hx.
    assert (conforms ReasoningContentBlockDelta x = true) as Hr.
    { eapply (conforms_typed_lookup _ _ "reasoningContent" false);
        [exact Hc| |exact Hx]. declared_key. }
    split; [done|]. destruct (conforms_typed_dict _ _ Hr) as [r ->].
    exists r. split; [done|]. intros k Hk.
    exact (typed_dict_keys _ _ _ _ Hr Hk).
Qed.

Lemma ContentBlockDelta_payloads_witness :
  conforms ContentBlockDelta
    (VDict {[ "toolUse" := VDict {[ "input" := VStr "[1," ]} ]}) = true ∧
  ∃ s, VDict {[ "input" := VStr "[1," ]} = VDict {[ "input" := VStr s ]}.
Proof.
  assert (conforms ContentBlockDelta
            (VDict {[ "toolUse" := VDict {[ "input" := VStr "[1," ]} ]})
          = true) as H by (vm_compute; reflexivity).
  split; [exact H|].
  exact (proj1 (proj2 (ContentBlockDelta_payloads _ H)) _ eq_refl).
Defined.

(** X9: in a conforming [StreamEvent], the payload under each key conforms
    to the class declared for that key; in particular a messageStart
    payload always holds its [role], and nothing else. *)
Theorem StreamEvent_payloads_typed (imp : Imports) (d : gmap string value) :
  conforms (StreamEvent imp) (VDict d) = true →
  (∀ k x, d !! k = Some x →
          ∃ a, annotation_of k (StreamEvent imp) = Some a ∧
               conforms a x = true) ∧
  (∀ x, d !! "messageStart" = Some x →
        ∃ r, x = VDict {[ "role" := r ]} ∧ conforms (Role imp) r = true).
Proof.
  intros Hc.
  assert (∀ k x, d !! k = Some x →
                 ∃ a, annotation_of k (StreamEvent imp) = Some a ∧
                      conforms a x = true) as Hall.
  { intros k x Hx.
    assert (has_key k (VDict d) = true) as Hh.
    { cbn. apply bool_decide_eq_true. eauto. }
    pose proof (typed_dict_keys _ _ _ _ Hc Hh) as Hin.
    each_field Hin;
      (eexists; split; [reflexivity|];
       eapply (conforms_typed_lookup _ _ _ false);
         [exact Hc| |exact Hx]; declared_key). }
  split; [exact Hall|].
  intros x Hx. destruct (Hall _ _ Hx) as (a & Ha & Hax).
  injection Ha as <-. by apply total_single_shape.
Qed.

Lemma StreamEvent_payloads_typed_witness :
  conforms (StreamEvent wire_imports)
    (VDict {[ "messageStart" := VDict {[ "role" := VStr "assistant" ]} ]})
  = true ∧
  ∃ r, VDict {[ "role" := VStr "assistant" ]} = VDict {[ "role" := r ]} ∧
       conforms (Role wire_imports) r = true.
Proof.
  assert (conforms (StreamEvent wire_imports)
            (VDict {[ "messageStart" :=
                        VDict {[ "role" := VStr "assistant" ]} ]})
          = true) as H by (vm_compute; reflexivity).
  split; [exact H|].
  exact (proj2 (StreamEvent_payloads_typed wire_imports _ H) _ eq_refl).
Defined.

(** X10: any payload that conforms to the class declared for one of the
    twelve keys makes, alone under that key, a conforming [StreamEvent]
    with exactly one variant key. *)
Theorem StreamEvent_single_variant (imp : Imports) (k : string) (a : ann)
    (x : value) :
  annotation_of k (StreamEvent imp) = Some a →
  conforms a x = true →
  conforms (StreamEvent imp) (VDict {[ k := x ]}) = true ∧
  count_keys variant_keys (VDict {[ k := x ]}) = 1%nat.
Proof.
  intros Ha Hx. unfold annotation_of in Ha.
  destruct (list_find _ _) as [[i f]|] eqn:Hfind; [|discriminate].
  injection Ha as <-.
  apply list_find_Some in Hfind as (Hi & Hk & _).
  apply list_elem_of_lookup_2 in Hi. subst k.
  each_field Hi; cbn [fst snd] in *;
    (split;
     [apply conforms_typed_singleton; [|declared_key];
      intros g Hg; each_field Hg; done
     |vm_compute; reflexivity]).
Qed.

Lemma StreamEvent_single_variant_witness :
  annotation_of "throttlingException" (StreamEvent wire_imports)
  = Some ExceptionEvent ∧
  conforms ExceptionEvent (VDict {[ "message" := VStr "rate limited" ]})
  = true ∧
  conforms (StreamEvent wire_imports)
    (VDict {[ "throttlingException" :=
                VDict {[ "message" := VStr "rate limited" ]} ]}) = true.
Proof.
  assert (conforms ExceptionEvent
            (VDict {[ "message" := VStr "rate limited" ]}) = true) as H
    by (vm_compute; reflexivity).
  split; [reflexivity|]. split; [exact H|].
  exact (proj1 (StreamEvent_single_variant wire_imports
                  "throttlingException" ExceptionEvent _ eq_refl H)).
Defined.

End DeclarationFacts.
